(** * audio_degrader: the "mix" degradation (DegradationMix.py)

    A shallow embedding of [DegradationMix] and the properties of its
    noise-mixing pipeline.

    Numeric model.  Samples and scalars are IEEE-754 binary64 values, the
    kernel's primitive [float]: [+], [*], [/] and [sqrt] are the correctly
    rounded operations NumPy and Python apply to doubles, with their
    infinities, signed zeros and [nan].  A noise decoded in single precision
    is taken after its (exact) conversion to double.  The one operation that
    is not an IEEE primitive, Python's [10 ** x], belongs to the environment
    of a call, together with the [OverflowError] it raises when the result
    leaves the double range.  [np.mean] adds left to right, as NumPy does
    for fewer than eight elements.

    Effects.  [apply] runs in a small state-and-exception monad: the state
    holds the host [DegradedAudioFile] and the [logging.debug] records, an
    outcome is a returned value, a raised exception, or exhaustion of the
    fuel that bounds the [while] loop of [adjust_noise_duration]. *)

From Stdlib Require Import ZArith Floats Ascii String.
From Stdlib Require Uint63.
From stdpp Require Import base list strings gmap.

Local Open Scope string_scope.

(** ** Two-dimensional arrays: a list of channels, axis 1 is the sample axis *)

Abbreviation array2 A := (list (list A)) (only parsing).

Definition shape0 {A} (a : array2 A) : nat := length a.

Definition shape1 {A} (a : array2 A) : nat :=
  match a with
  | [] => 0
  | r :: _ => length r
  end.

Definition has_shape {A} (a : array2 A) (c n : nat) : Prop :=
  length a = c ∧ Forall (λ r, length r = n) a.

(** [np.zeros((c, n))] *)
Definition np_zeros (c n : nat) : array2 float :=
  replicate c (replicate n 0%float).

(** [np.concatenate((a, b), axis=1)] on arrays with the same channel count *)
Definition np_concatenate_axis1 {A} (a b : array2 A) : array2 A :=
  zip_with app a b.

(** The array after [k] rounds of concatenation with itself *)
Definition doubled {A} (k : nat) (a : array2 A) : array2 A :=
  Nat.iter k (λ x, np_concatenate_axis1 x x) a.

(** [a[:, :n]] *)
Definition slice_axis1 {A} (n : nat) (a : array2 A) : array2 A :=
  map (take n) a.

(** [a * k] and [a / k] for a scalar [k] *)
Definition np_mul_scalar (a : array2 float) (k : float) : array2 float :=
  map (map (λ v, v * k)%float) a.

Definition np_div_scalar (a : array2 float) (k : float) : array2 float :=
  map (map (λ v, v / k)%float) a.

(** [np.power(a, 2)] *)
Definition np_square (a : array2 float) : array2 float :=
  map (map (λ v, v * v)%float) a.

Definition fsum (l : list float) : float := foldl PrimFloat.add 0%float l.

(** The element count as a double *)
Definition float_of_nat (n : nat) : float :=
  of_uint63 (Uint63.of_Z (Z.of_nat n)).

(** [np.mean(a)]: the sum of all elements over their count *)
Definition np_mean (a : array2 float) : float :=
  (fsum (concat a) / float_of_nat (length (concat a)))%float.

(** [np.sqrt(np.mean(np.power(a, 2)))] *)
Definition rms (a : array2 float) : float :=
  PrimFloat.sqrt (np_mean (np_square a)).

(** Kinds of IEEE values, read on the specification of a double: the values
    that are not finite, and those that are a zero or [nan] *)
Definition sf_nonfinite (s : spec_float) : bool :=
  match s with
  | S754_infinity _ | S754_nan => true
  | _ => false
  end.

Definition sf_zero_or_nan (s : spec_float) : bool :=
  match s with
  | S754_zero _ | S754_nan => true
  | _ => false
  end.

Definition nonfinite (x : float) : bool := sf_nonfinite (Prim2SF x).

Definition zero_or_nan (x : float) : bool := sf_zero_or_nan (Prim2SF x).

(** NumPy broadcasting of one axis: equal lengths, or one of them is 1 *)
Definition broadcast_dim (m n : nat) : option nat :=
  if (m =? n)%nat then Some m
  else if (m =? 1)%nat then Some n
  else if (n =? 1)%nat then Some m
  else None.

Definition stretch {A} (n : nat) (l : list A) : list A :=
  match l with
  | [x] => replicate n x
  | _ => l
  end.

Definition broadcast_to {A} (r c : nat) (a : array2 A) : array2 A :=
  stretch r (map (stretch c) a).

(** [a + b]; [None] is NumPy's "operands could not be broadcast together" *)
Definition np_add_opt (a b : array2 float) : option (array2 float) :=
  match broadcast_dim (shape0 a) (shape0 b),
        broadcast_dim (shape1 a) (shape1 b) with
  | Some r, Some c =>
      Some (zip_with (zip_with PrimFloat.add)
              (broadcast_to r c a) (broadcast_to r c b))
  | _, _ => None
  end.

(** What [librosa.core.load(..., mono=False)] returns: a 1-D array for a
    single-channel file, a 2-D array (channels, samples) otherwise. *)
Inductive ndarray : Type :=
| Arr1 (v : list float)
| Arr2 (m : array2 float).

(** [len(a.shape)] *)
Definition ndim (a : ndarray) : nat :=
  match a with Arr1 _ => 1 | Arr2 _ => 2 end.

(** ** POSIX [os.path.join] of two components *)

Fixpoint endswith_sep (s : string) : bool :=
  match s with
  | EmptyString => false
  | String c EmptyString => if Ascii.eqb c "/"%char then true else false
  | String _ rest => endswith_sep rest
  end.

Definition startswith_sep (s : string) : bool :=
  match s with
  | String c _ => if Ascii.eqb c "/"%char then true else false
  | EmptyString => false
  end.

Definition path_join (a b : string) : string :=
  if startswith_sep b then b
  else if (String.eqb a "" || endswith_sep a)%bool then a +:+ b
  else a +:+ "/" +:+ b.

(** ** Exceptions, outcomes and the monad *)

Inductive exn : Type :=
| KeyError (key : string)
| LoadError (path : string)
| ValueError (msg : string)
| OverflowError (msg : string).

Inductive outcome (A : Type) : Type :=
| Ok (a : A)
| Raised (e : exn)
| OutOfFuel.

Arguments Ok {A} a.
Arguments Raised {A} e.
Arguments OutOfFuel {A}.

Record DegradedAudioFile : Type := mkDAF {
  samples : list (list float);
  sample_rate : Z
}.

Record log_record : Type := mkLog {
  log_format : string;
  log_args : list float
}.

Record state : Type := mkState {
  host : DegradedAudioFile;
  debug_log : list log_record
}.

Definition M (A : Type) : Type := state → outcome A * state.

Definition ret {A} (a : A) : M A := λ st, (Ok a, st).

Definition bind {A B} (m : M A) (k : A → M B) : M B :=
  λ st,
    match m st with
    | (Ok a, st') => k a st'
    | (Raised e, st') => (Raised e, st')
    | (OutOfFuel, st') => (OutOfFuel, st')
    end.

Definition raise {A} (e : exn) : M A := λ st, (Raised e, st).

Definition diverge {A} : M A := λ st, (OutOfFuel, st).

#[global] Instance M_ret : MRet M := @ret.
#[global] Instance M_bind : MBind M := λ A B k m, bind m k.

(** [degraded_audio_file.samples] and [degraded_audio_file.sample_rate] *)
Definition get_samples : M (list (list float)) :=
  λ st, (Ok (samples (host st)), st).

Definition get_sample_rate : M Z :=
  λ st, (Ok (sample_rate (host st)), st).

(** [degraded_audio_file.samples = y] *)
Definition set_samples (y : list (list float)) : M unit :=
  λ st, (Ok tt, mkState (mkDAF y (sample_rate (host st))) (debug_log st)).

(** [logging.debug(fmt % args)] *)
Definition logging_debug (fmt : string) (args : list float) : M unit :=
  λ st, (Ok tt, mkState (host st) (debug_log st ++ [mkLog fmt args])).

(** ** The environment of a call *)

Record Env : Type := mkEnv {
  (** [os.path.isfile] *)
  isfile : string → bool;
  (** [audio_degrader.__path__[0]] *)
  package_path : string;
  (** [librosa.core.load(path, sr=sample_rate, mono=False)] *)
  load : string → Z → exn + ndarray;
  (** the builtin [float(str)]; [None] is its [ValueError] *)
  float_of_str : string → option float;
  (** [10 ** x] on a Python float; [None] is its [OverflowError] *)
  pow10 : float → option float
}.

(** ** class DegradationMix *)

Module DegradationMix.

Definition name : string := "mix".

Definition parameters_info : list (string * string * string) :=
  [("noise", "sounds/ambience-pub.wav",
    "Full or relative path (to resources dir) of noise");
   ("snr", "6", "Desired Signal-to-Noise-Ratio [dB]")].

Section Methods.

Context (env : Env).
(** [self.parameters_values] *)
Context (parameters_values : gmap string string).

(** [self.parameters_values[key]] *)
Definition parameter (key : string) : M string :=
  match parameters_values !! key with
  | Some v => ret v
  | None => raise (KeyError key)
  end.

Definition read_noise (noise_path : string) : M (list (list float)) :=
  sr ← get_sample_rate;
  match load env noise_path sr with
  | inl e => raise e
  | inr aux_x_noise =>
      match aux_x_noise with
      | Arr1 v =>
          let noise_samples := np_zeros 2 (length v) in
          let noise_samples := <[0 := v]> noise_samples in
          let noise_samples := <[1 := v]> noise_samples in
          ret noise_samples
      | Arr2 m => ret m
      end
  end.

(** The [while] loop of [adjust_noise_duration]; one unit of fuel per test
    of the loop condition. *)
Fixpoint repeat_noise {A} (fuel : nat) (noise_samples : list (list A))
    (input_num_samples : nat) : option (list (list A)) :=
  match fuel with
  | 0 => None
  | S fuel' =>
      if (shape1 noise_samples <? input_num_samples)%nat
      then repeat_noise fuel'
             (np_concatenate_axis1 noise_samples noise_samples)
             input_num_samples
      else Some noise_samples
  end.

Definition adjust_noise_duration (fuel : nat)
    (noise_samples : list (list float)) : M (list (list float)) :=
  s ← get_samples;
  let input_num_samples := shape1 s in
  match repeat_noise fuel noise_samples input_num_samples with
  | None => diverge
  | Some noise_samples => ret (slice_axis1 input_num_samples noise_samples)
  end.

Definition get_actual_noise_path : M string :=
  let resources_dir := path_join (package_path env) "resources" in
  noise_path ← parameter "noise";
  if negb (isfile env noise_path)
  then ret (path_join resources_dir noise_path)
  else ret noise_path.

(** [10 ** x] *)
Definition py_pow10 (x : float) : M float :=
  match pow10 env x with
  | Some v => ret v
  | None => raise (OverflowError "(34, 'Numerical result out of range')")
  end.

Definition get_noise_gain_factor (snr_dbs rms_noise rms_input : float)
    : M float :=
  logging_debug "RMS noise: %f" [rms_noise];;
  logging_debug "RMS input: %f" [rms_input];;
  snr_linear ← py_pow10 (snr_dbs / 20)%float;
  logging_debug "SNR , SNR linear: %f , %f" [snr_dbs; snr_linear];;
  let noise_gain_factor := (rms_input / rms_noise / snr_linear)%float in
  logging_debug "noise_gain_factor: %f" [noise_gain_factor];;
  ret noise_gain_factor.

(** [float(s)] *)
Definition py_float (s : string) : M float :=
  match float_of_str env s with
  | Some v => ret v
  | None => raise (ValueError "could not convert string to float")
  end.

(** [a + b] *)
Definition np_add (a b : list (list float)) : M (list (list float)) :=
  match np_add_opt a b with
  | Some y => ret y
  | None => raise (ValueError "operands could not be broadcast together")
  end.

Definition apply (fuel : nat) : M unit :=
  noise_path ← get_actual_noise_path;
  raw ← read_noise noise_path;
  noise_samples ← adjust_noise_duration fuel raw;
  let rms_noise := rms noise_samples in
  s ← get_samples;
  let rms_input := rms s in
  snr_str ← parameter "snr";
  snr ← py_float snr_str;
  noise_gain_factor ← get_noise_gain_factor snr rms_noise rms_input;
  s ← get_samples;
  y ← np_add s (np_mul_scalar noise_samples noise_gain_factor);
  let rms_y := rms y in
  let y := np_div_scalar (np_mul_scalar y rms_input) rms_y in
  set_samples y.

End Methods.

End DegradationMix.

(** ** A small world to run the code in

    One existing file outside the package, four bundled noises, the
    builtin [float] on the literals used below, and [10 ** x] at the
    exponents they lead to: [10 ** 0.0 = 1.0], [10 ** 0.3] (the exponent of
    6 dB), [10 ** x = 1.0] at two exponents too small to move the result
    off 1, and [10 ** 350.0], which overflows. *)

Definition demo_load (p : string) (sr : Z) : exn + ndarray :=
  if String.eqb p "/data/hum.wav" then inr (Arr1 [1%float])
  else if String.eqb p "/opt/audio_degrader/resources/sounds/inverse.wav"
  then inr (Arr1 [(-1)%float])
  else if String.eqb p "/opt/audio_degrader/resources/sounds/silence.wav"
  then inr (Arr1 [0%float])
  else if String.eqb p "/opt/audio_degrader/resources/sounds/empty.wav"
  then inr (Arr1 [])
  else inl (LoadError p).

Definition demo_pow10 (x : float) : option float :=
  if (x =? 0)%float then Some 1%float
  else if (x =? 0x1.3333333333333p-2)%float
  then Some 0x1.fec982d5bb8afp+0%float
  else if ((x =? 0x1p-60 / 20) || (x =? 0x1p-59 / 20))%float
  then Some 1%float
  else None.

Definition demo_env : Env := {|
  isfile := λ p, String.eqb p "/data/hum.wav";
  package_path := "/opt/audio_degrader";
  load := demo_load;
  float_of_str := λ s,
    if String.eqb s "0" then Some 0%float
    else if String.eqb s "6" then Some 6%float
    else if String.eqb s "7000" then Some 7000%float
    else None;
  pow10 := demo_pow10
|}.

Definition params (noise snr : string) : gmap string string :=
  <["noise" := noise]> (<["snr" := snr]> ∅).

Definition ramp2 : list (list float) :=
  [[1; 2]; [3; 4]]%float.

Definition host5 : state :=
  mkState (mkDAF [[0; 0; 0; 0; 0]; [0; 0; 0; 0; 0]]%float 44100%Z) [].

Definition host2 : state :=
  mkState (mkDAF [[5; 6]; [7; 8]]%float 44100%Z) [].

Definition host0 : state := mkState (mkDAF [[]; []] 44100%Z) [].

Definition ones2 : list (list float) := [[1; 1]; [1; 1]]%float.

Definition host_ones : state := mkState (mkDAF ones2 44100%Z) [].

(** A second world, with a three-channel recording outside the package. *)
Definition studio_load (p : string) (sr : Z) : exn + ndarray :=
  if String.eqb p "/data/hum.wav" then inr (Arr1 [1%float])
  else if String.eqb p "/data/surround.wav"
  then inr (Arr2 [[1; 1]; [1; 1]; [1; 1]]%float)
  else inl (LoadError p).

Definition studio_env : Env := {|
  isfile := λ p,
    (String.eqb p "/data/hum.wav" || String.eqb p "/data/surround.wav")%bool;
  package_path := "/opt/audio_degrader";
  load := studio_load;
  float_of_str := λ s,
    if String.eqb s "0" then Some 0%float
    else if String.eqb s "6" then Some 6%float
    else None;
  pow10 := demo_pow10
|}.

Definition host_silent : state :=
  mkState (mkDAF [[0; 0]; [0; 0]]%float 44100%Z) [].

(** The records [get_noise_gain_factor] logs before and after [10 ** x] *)
Definition gain_records_before (rms_noise rms_input : float)
    : list log_record :=
  [mkLog "RMS noise: %f" [rms_noise];
   mkLog "RMS input: %f" [rms_input]].

Definition gain_records (snr_dbs rms_noise rms_input snr_linear : float)
    : list log_record :=
  gain_records_before rms_noise rms_input ++
  [mkLog "SNR , SNR linear: %f , %f" [snr_dbs; snr_linear];
   mkLog "noise_gain_factor: %f"
     [(rms_input / rms_noise / snr_linear)%float]].

(** * Properties *)

Import DegradationMix.

Local Close Scope string_scope.

(** ** Running monadic code *)

Lemma run_bind {A B} (m : M A) (k : A → M B) st :
  (m ≫= k) st =
  match m st with
  | (Ok a, st') => k a st'
  | (Raised e, st') => (Raised e, st')
  | (OutOfFuel, st') => (OutOfFuel, st')
  end.
Proof. reflexivity. Qed.

Lemma run_bind_ok {A B} (m : M A) (k : A → M B) st a st' :
  m st = (Ok a, st') → (m ≫= k) st = k a st'.
Proof. intros H. rewrite run_bind, H. reflexivity. Qed.

Lemma get_samples_run st : get_samples st = (Ok (samples (host st)), st).
Proof. reflexivity. Qed.

Ltac run_step := rewrite run_bind; cbv beta iota zeta.

Ltac run_ok H := rewrite (run_bind_ok _ _ _ _ _ H); cbv beta zeta.

(** ** Shapes *)

Section Shapes.

Context {A : Type}.
Implicit Types (a : list (list A)) (r : list A).

Lemma shape1_concatenate a :
  shape1 (np_concatenate_axis1 a a) = 2 * shape1 a.
Proof.
  destruct a as [|r a]; simpl; [reflexivity|].
  rewrite length_app. lia.
Qed.

Lemma length_concatenate a :
  length (np_concatenate_axis1 a a) = length a.
Proof.
  unfold np_concatenate_axis1. rewrite length_zip_with. lia.
Qed.

Lemma Forall_concatenate a n :
  Forall (λ r, length r = n) a →
  Forall (λ r, length r = 2 * n) (np_concatenate_axis1 a a).
Proof.
  induction 1 as [|r a Hr Ha IH]; simpl; constructor; [|exact IH].
  rewrite length_app. lia.
Qed.

Lemma has_shape_concatenate a c n :
  has_shape a c n → has_shape (np_concatenate_axis1 a a) c (2 * n).
Proof.
  intros [Hc Hn]. split.
  - rewrite length_concatenate. exact Hc.
  - apply Forall_concatenate, Hn.
Qed.

Lemma doubled_S k a :
  doubled (S k) a = doubled k (np_concatenate_axis1 a a).
Proof.
  unfold doubled. induction k as [|k IH]; [reflexivity|].
  simpl in *. rewrite IH. reflexivity.
Qed.

Lemma shape1_doubled k a : shape1 (doubled k a) = 2 ^ k * shape1 a.
Proof.
  revert a. induction k as [|k IH]; intros a.
  - simpl. lia.
  - rewrite doubled_S, IH, shape1_concatenate, Nat.pow_succ_r'. lia.
Qed.

Lemma has_shape_doubled k a c n :
  has_shape a c n → has_shape (doubled k a) c (2 ^ k * n).
Proof.
  revert a n. induction k as [|k IH]; intros a n H.
  - unfold doubled. rewrite Nat.pow_0_r, Nat.mul_1_l. exact H.
  - rewrite doubled_S. apply has_shape_concatenate, IH in H.
    replace (2 ^ S k * n) with (2 ^ k * (2 * n)); [exact H|].
    rewrite Nat.pow_succ_r'. lia.
Qed.

Lemma has_shape_shape1 a c n : has_shape a c n → 0 < c → shape1 a = n.
Proof.
  intros [Hc Hn] Hpos. destruct a as [|r a]; simpl in *; [lia|].
  inversion Hn; subst. reflexivity.
Qed.

Lemma has_shape_slice a c n m :
  has_shape a c n → m ≤ n → has_shape (slice_axis1 m a) c m.
Proof.
  intros [Hc Hn] Hle. split.
  - unfold slice_axis1. rewrite length_map. exact Hc.
  - unfold slice_axis1. apply Forall_map.
    eapply Forall_impl; [exact Hn|]. simpl. intros r Hr.
    rewrite length_take. lia.
Qed.

Lemma slice_all a c n : has_shape a c n → slice_axis1 n a = a.
Proof.
  intros [_ Hn]. unfold slice_axis1.
  induction Hn as [|r a Hr Ha IH]; simpl; [reflexivity|].
  rewrite IH, take_ge by lia. reflexivity.
Qed.

(** ** The repeat loop *)

Lemma repeat_noise_more fuel a L out :
  repeat_noise fuel a L = Some out → repeat_noise (S fuel) a L = Some out.
Proof.
  revert a. induction fuel as [|fuel IH]; intros a H; [discriminate|].
  simpl in H. change (repeat_noise (S (S fuel)) a L) with
    (if (shape1 a <? L)%nat
     then repeat_noise (S fuel) (np_concatenate_axis1 a a) L
     else Some a).
  destruct (shape1 a <? L)%nat; [apply IH, H | exact H].
Qed.

Lemma repeat_noise_mono fuel fuel' a L out :
  fuel ≤ fuel' →
  repeat_noise fuel a L = Some out → repeat_noise fuel' a L = Some out.
Proof.
  induction 1 as [|fuel' Hle IH]; intros H; [exact H|].
  apply repeat_noise_more, IH, H.
Qed.

(** Whatever the loop returns is the input doubled [k] times, for the
    least [k] that reaches the target length. *)
Lemma repeat_noise_result fuel a L out :
  repeat_noise fuel a L = Some out →
  ∃ k, k < fuel ∧ out = doubled k a ∧ L ≤ shape1 (doubled k a) ∧
       ∀ j, j < k → shape1 (doubled j a) < L.
Proof.
  revert a. induction fuel as [|fuel IH]; intros a H; [discriminate|].
  simpl in H. destruct (Nat.ltb_spec (shape1 a) L) as [Hlt|Hge].
  - apply IH in H as (k & Hk & -> & Hreach & Hmin).
    exists (S k). rewrite doubled_S.
    split; [lia|]. split; [reflexivity|]. split; [exact Hreach|].
    intros [|j] Hj; [exact Hlt|].
    rewrite doubled_S. apply Hmin. lia.
  - injection H as <-. exists 0. simpl.
    split; [lia|]. split; [reflexivity|]. split; [exact Hge|]. lia.
Qed.

(** With at least one sample per channel, [L] tests of the condition after
    the first are always enough. *)
Lemma repeat_noise_terminates fuel a L :
  1 ≤ shape1 a → L ≤ shape1 a + fuel →
  is_Some (repeat_noise (S fuel) a L).
Proof.
  revert a. induction fuel as [|fuel IH]; intros a Hpos Hle.
  - simpl. destruct (Nat.ltb_spec (shape1 a) L); [lia|]. eauto.
  - change (repeat_noise (S (S fuel)) a L) with
      (if (shape1 a <? L)%nat
       then repeat_noise (S fuel) (np_concatenate_axis1 a a) L
       else Some a).
    destruct (shape1 a <? L)%nat; [|eauto].
    apply IH; rewrite shape1_concatenate; lia.
Qed.

(** With no sample at all the loop spins for ever. *)
Lemma repeat_noise_empty_diverges fuel a L :
  shape1 a = 0 → 0 < L → repeat_noise fuel a L = None.
Proof.
  revert a. induction fuel as [|fuel IH]; intros a H0 HL; [reflexivity|].
  simpl. destruct (Nat.ltb_spec (shape1 a) L); [|lia].
  apply IH; [|exact HL]. rewrite shape1_concatenate. lia.
Qed.

End Shapes.

(** ** Duration adjustment *)

Section Adjust.

Context (env : Env) (parameters_values : gmap string string).

Lemma adjust_noise_duration_run fuel (noise : list (list float)) st :
  adjust_noise_duration fuel noise st =
  match repeat_noise fuel noise (shape1 (samples (host st))) with
  | Some looped =>
      (Ok (slice_axis1 (shape1 (samples (host st))) looped), st)
  | None => (OutOfFuel, st)
  end.
Proof.
  unfold adjust_noise_duration. rewrite run_bind. simpl.
  destruct (repeat_noise _ _ _); reflexivity.
Qed.

End Adjust.

(** C3.  A noise buffer of shape (2, len) with len >= 1 is turned by
    [adjust_noise_duration] into a buffer of shape exactly (2, L), where L is
    the host's sample count: the result is the first L samples per channel
    of the noise concatenated with itself [k] times, [k] being the least
    number of doublings that reaches L; when len >= L there is no repetition
    and the buffer is trimmed directly. *)
Theorem adjust_noise_duration_shape
    (noise : list (list float)) (len L : nat) (st : state) :
  has_shape noise 2 len → 1 ≤ len → shape1 (samples (host st)) = L →
  ∃ k out,
    (∀ fuel, L < fuel → adjust_noise_duration fuel noise st = (Ok out, st)) ∧
    has_shape out 2 L ∧
    out = slice_axis1 L (doubled k noise) ∧
    L ≤ 2 ^ k * len ∧
    (∀ j, j < k → 2 ^ j * len < L) ∧
    (L ≤ len → k = 0 ∧ out = slice_axis1 L noise).
Proof.
  intros Hshape Hlen HL.
  assert (Hs1 : shape1 noise = len) by (eapply has_shape_shape1; [eauto|lia]).
  destruct (repeat_noise_terminates L noise L) as [looped Hloop];
    [lia | lia |].
  destruct (repeat_noise_result _ _ _ _ Hloop) as (k & _ & -> & Hreach & Hmin).
  rewrite shape1_doubled, Hs1 in Hreach.
  exists k, (slice_axis1 L (doubled k noise)).
  split; [|split; [|split; [|split; [|split]]]].
  - intros fuel Hfuel. rewrite adjust_noise_duration_run, HL.
    rewrite (repeat_noise_mono (S L) fuel _ _ _ Hfuel Hloop). reflexivity.
  - eapply has_shape_slice; [apply has_shape_doubled, Hshape | exact Hreach].
  - reflexivity.
  - exact Hreach.
  - intros j Hj. specialize (Hmin j Hj).
    rewrite shape1_doubled, Hs1 in Hmin. exact Hmin.
  - intros Hle. destruct k as [|k]; [split; reflexivity|].
    specialize (Hmin 0 ltac:(lia)).
    rewrite shape1_doubled, Hs1 in Hmin. simpl in Hmin. lia.
Qed.

Lemma adjust_noise_duration_shape_witness :
  ∃ k out,
    (∀ fuel, 5 < fuel →
       adjust_noise_duration fuel ramp2 host5 = (Ok out, host5)) ∧
    has_shape out 2 5 ∧
    out = slice_axis1 5 (doubled k ramp2) ∧
    5 ≤ 2 ^ k * 2 ∧
    (∀ j, j < k → 2 ^ j * 2 < 5) ∧
    (5 ≤ 2 → k = 0 ∧ out = slice_axis1 5 ramp2).
Proof.
  apply (adjust_noise_duration_shape ramp2 2 5 host5).
  - split; [reflexivity | repeat constructor].
  - lia.
  - reflexivity.
Defined.

Example adjust_noise_duration_ramp :
  adjust_noise_duration 4 ramp2 host5 =
  (Ok [[1; 2; 1; 2; 1]; [3; 4; 3; 4; 3]]%float, host5).
Proof. reflexivity. Qed.

(** C9.  When the noise already has the host's sample count, duration
    adjustment returns the noise buffer itself, element for element. *)
Theorem adjust_noise_duration_same_length
    (noise : list (list float)) (len : nat) (fuel : nat) (st : state) :
  has_shape noise 2 len → shape1 (samples (host st)) = len →
  adjust_noise_duration (S fuel) noise st = (Ok noise, st).
Proof.
  intros Hshape HL.
  assert (Hs1 : shape1 noise = len) by (eapply has_shape_shape1; [eauto|lia]).
  rewrite adjust_noise_duration_run, HL. simpl.
  rewrite Hs1, Nat.ltb_irrefl.
  rewrite (slice_all _ _ _ Hshape). reflexivity.
Qed.

Lemma adjust_noise_duration_same_length_witness :
  adjust_noise_duration 1 ramp2 host2 = (Ok ramp2, host2).
Proof.
  apply (adjust_noise_duration_same_length ramp2 2 0 host2).
  - split; [reflexivity | repeat constructor].
  - reflexivity.
Defined.

(** C10.  The repeat loop of [adjust_noise_duration] terminates whenever the
    noise has at least one sample per channel, because every iteration
    doubles the sample count; with an empty noise buffer and a non-empty
    host buffer the length stays 0 and no amount of fuel lets the loop
    exit. *)
Theorem adjust_noise_duration_terminates
    (noise : list (list float)) (st : state) :
  (1 ≤ shape1 noise →
   ∃ fuel0, ∀ fuel, fuel0 ≤ fuel →
     ∃ out, adjust_noise_duration fuel noise st = (Ok out, st)) ∧
  shape1 (np_concatenate_axis1 noise noise) = 2 * shape1 noise ∧
  (shape1 noise = 0 → 0 < shape1 (samples (host st)) →
   ∀ fuel, adjust_noise_duration fuel noise st = (OutOfFuel, st)).
Proof.
  split; [|split].
  - intros Hpos. set (L := shape1 (samples (host st))).
    exists (S L). intros fuel Hfuel.
    destruct (repeat_noise_terminates L noise L) as [looped Hloop];
      [lia | lia |].
    exists (slice_axis1 L looped).
    rewrite adjust_noise_duration_run. fold L.
    rewrite (repeat_noise_mono (S L) fuel _ _ _ Hfuel Hloop). reflexivity.
  - apply shape1_concatenate.
  - intros H0 HL fuel. rewrite adjust_noise_duration_run.
    rewrite repeat_noise_empty_diverges by assumption. reflexivity.
Qed.

Lemma adjust_noise_duration_terminates_witness :
  (∃ fuel0, ∀ fuel, fuel0 ≤ fuel →
     ∃ out, adjust_noise_duration fuel ramp2 host5 = (Ok out, host5)) ∧
  (∀ fuel, adjust_noise_duration fuel [[]; []] host5 = (OutOfFuel, host5)).
Proof.
  split.
  - apply (proj1 (adjust_noise_duration_terminates ramp2 host5)).
    simpl. lia.
  - apply (proj2 (proj2 (adjust_noise_duration_terminates [[]; []] host5))).
    + reflexivity.
    + simpl. lia.
Defined.

(** ** Noise loading and path resolution *)

Lemma string_app_assoc (a b c : string) :
  ((a +:+ b) +:+ c = a +:+ (b +:+ c))%string.
Proof.
  induction a as [|ch a IH]; [reflexivity|].
  change (String ch ((a +:+ b) +:+ c) = String ch (a +:+ b +:+ c))%string.
  f_equal. exact IH.
Qed.

(** C8.  A decoded single-channel signal of shape (N,) is returned by
    [read_noise] as a buffer of shape (2, N) whose two channels are both
    the decoded signal. *)
Theorem read_noise_mono_duplicated
    (env : Env) (noise_path : string) (v : list float) (st : state) :
  load env noise_path (sample_rate (host st)) = inr (Arr1 v) →
  ∃ out,
    read_noise env noise_path st = (Ok out, st) ∧
    has_shape out 2 (length v) ∧
    out !! 0 = Some v ∧ out !! 1 = Some v.
Proof.
  intros Hload. exists [v; v].
  split; [|split; [|split; reflexivity]].
  - unfold read_noise. rewrite run_bind. simpl. rewrite Hload. reflexivity.
  - split; [reflexivity | repeat constructor].
Qed.

Lemma read_noise_mono_duplicated_witness :
  ∃ out,
    read_noise demo_env "/data/hum.wav" host_ones = (Ok out, host_ones) ∧
    has_shape out 2 1 ∧
    out !! 0 = Some [1%float] ∧ out !! 1 = Some [1%float].
Proof.
  apply (read_noise_mono_duplicated demo_env "/data/hum.wav" [1%float]
           host_ones).
  reflexivity.
Defined.

Lemma endswith_sep_app (a b : string) :
  b ≠ ""%string → endswith_sep (a +:+ b) = endswith_sep b.
Proof.
  intros Hb. induction a as [|ch a IH]; [reflexivity|].
  change (String ch a +:+ b)%string with (String ch (a +:+ b)).
  simpl. destruct (a +:+ b)%string eqn:Hab; [|exact IH].
  destruct a; [simpl in Hab; contradiction | discriminate].
Qed.

Lemma path_join_relative (a b : string) :
  a ≠ ""%string → endswith_sep a = false → startswith_sep b = false →
  path_join a b = (a +:+ "/" +:+ b)%string.
Proof.
  intros Ha Hend Hb. unfold path_join. rewrite Hb, Hend.
  apply String.eqb_neq in Ha. rewrite Ha. reflexivity.
Qed.

(** C6 (as amended).  [get_actual_noise_path] returns the [noise] parameter
    verbatim when it names an existing file; otherwise it returns
    [os.path.join] of the package's [resources] directory and the
    parameter, which for a parameter not rooted at [/] is
    [<package>/resources/<parameter>] and for a parameter rooted at [/] is
    the parameter itself. *)
Theorem get_actual_noise_path_resolution
    (env : Env) (parameters_values : gmap string string)
    (noise : string) (st : state) :
  parameters_values !! "noise"%string = Some noise →
  (isfile env noise = true →
   get_actual_noise_path env parameters_values st = (Ok noise, st)) ∧
  (isfile env noise = false → startswith_sep noise = false →
   package_path env ≠ ""%string → endswith_sep (package_path env) = false →
   get_actual_noise_path env parameters_values st =
   (Ok (package_path env +:+ "/resources/" +:+ noise), st)) ∧
  (isfile env noise = false → startswith_sep noise = true →
   get_actual_noise_path env parameters_values st = (Ok noise, st)).
Proof.
  intros Hparam.
  assert (Hrun : get_actual_noise_path env parameters_values st =
    (Ok (if negb (isfile env noise)
         then path_join (path_join (package_path env) "resources") noise
         else noise), st)).
  { unfold get_actual_noise_path, parameter. rewrite Hparam, run_bind. simpl.
    destruct (isfile env noise); reflexivity. }
  split; [|split].
  - intros H. rewrite Hrun, H. reflexivity.
  - intros H Hrel Hpkg Hend. rewrite Hrun, H. simpl negb. cbv iota.
    rewrite (path_join_relative (package_path env) "resources")
      by (assumption || reflexivity).
    rewrite path_join_relative; [| | |exact Hrel].
    + rewrite string_app_assoc. reflexivity.
    + destruct (package_path env); [contradiction | discriminate].
    + rewrite endswith_sep_app by discriminate. reflexivity.
  - intros H Habs. rewrite Hrun, H. simpl negb. cbv iota.
    unfold path_join at 1. rewrite Habs. reflexivity.
Qed.

Lemma get_actual_noise_path_resolution_witness :
  get_actual_noise_path demo_env (params "/data/hum.wav" "6") host_ones =
    (Ok "/data/hum.wav"%string, host_ones) ∧
  get_actual_noise_path demo_env (params "sounds/inverse.wav" "6") host_ones =
    (Ok ("/opt/audio_degrader" +:+ "/resources/" +:+ "sounds/inverse.wav"),
     host_ones) ∧
  get_actual_noise_path demo_env (params "/nowhere/hiss.wav" "6") host_ones =
    (Ok "/nowhere/hiss.wav"%string, host_ones).
Proof.
  split; [|split].
  - apply (proj1 (get_actual_noise_path_resolution demo_env
                    (params "/data/hum.wav" "6") "/data/hum.wav" host_ones
                    eq_refl)).
    reflexivity.
  - apply (proj1 (proj2 (get_actual_noise_path_resolution demo_env
                    (params "sounds/inverse.wav" "6") "sounds/inverse.wav"
                    host_ones eq_refl))).
    + reflexivity.
    + reflexivity.
    + discriminate.
    + reflexivity.
  - apply (proj2 (proj2 (get_actual_noise_path_resolution demo_env
                    (params "/nowhere/hiss.wav" "6") "/nowhere/hiss.wav"
                    host_ones eq_refl))).
    + reflexivity.
    + reflexivity.
Defined.

(** C6 as stated fails for a parameter rooted at [/] that names no file:
    the path returned is the parameter itself, outside the resources
    directory. *)
Lemma get_actual_noise_path_absolute_escapes_resources :
  isfile demo_env "/nowhere/hiss.wav" = false ∧
  get_actual_noise_path demo_env (params "/nowhere/hiss.wav" "6") host_ones =
    (Ok "/nowhere/hiss.wav"%string, host_ones) ∧
  String.prefix (path_join (package_path demo_env) "resources")
    "/nowhere/hiss.wav" = false.
Proof. repeat split. Qed.

Example get_actual_noise_path_bundled :
  get_actual_noise_path demo_env (params "sounds/inverse.wav" "6") host_ones =
  (Ok "/opt/audio_degrader/resources/sounds/inverse.wav"%string, host_ones).
Proof. reflexivity. Qed.

(** ** Kinds of IEEE values and how the operations move between them *)

Section Kinds.

Implicit Types (x y z : float).

Lemma SFcompare_refl (s : spec_float) :
  s ≠ S754_nan → SFcompare s s = Some Eq.
Proof.
  destruct s as [b|b| |b m e]; intros H; simpl; try congruence.
  - destruct b; reflexivity.
  - rewrite Z.compare_refl.
    assert (Hm : Pos.compare_cont Eq m m = Eq) by apply Pos.compare_refl.
    rewrite Hm. destruct b; reflexivity.
Qed.

Lemma is_nan_spec x :
  is_nan x = match Prim2SF x with S754_nan => true | _ => false end.
Proof.
  unfold is_nan. rewrite FloatAxioms.eqb_spec. unfold SFeqb.
  destruct (Prim2SF x) as [b|b| |b m e] eqn:Hx; try reflexivity;
    rewrite SFcompare_refl by discriminate; reflexivity.
Qed.

Lemma is_infinity_spec x :
  is_infinity x =
  match Prim2SF x with S754_infinity _ => true | _ => false end.
Proof.
  unfold is_infinity. rewrite FloatAxioms.eqb_spec, abs_spec.
  change (Prim2SF PrimFloat.infinity) with (S754_infinity false).
  destruct (Prim2SF x) as [b|b| |b m e]; reflexivity.
Qed.

Lemma is_zero_spec x :
  is_zero x = match Prim2SF x with S754_zero _ => true | _ => false end.
Proof.
  unfold is_zero. rewrite FloatAxioms.eqb_spec.
  change (Prim2SF PrimFloat.zero) with (S754_zero false).
  destruct (Prim2SF x) as [b|b| |b m e]; try reflexivity;
    destruct b; reflexivity.
Qed.

Lemma is_finite_nonfinite x : is_finite x = negb (nonfinite x).
Proof.
  unfold is_finite, nonfinite. rewrite is_nan_spec, is_infinity_spec.
  destruct (Prim2SF x); reflexivity.
Qed.

Lemma nonfinite_is_finite x : nonfinite x = true → is_finite x = false.
Proof. intros H. rewrite is_finite_nonfinite, H. reflexivity. Qed.

Lemma nan_unique x : Prim2SF x = S754_nan → x = nan.
Proof. intros H. rewrite <- (SF2Prim_Prim2SF x), H. reflexivity. Qed.

Lemma is_zero_zero_or_nan x : is_zero x = true → zero_or_nan x = true.
Proof.
  rewrite is_zero_spec. unfold zero_or_nan.
  destruct (Prim2SF x); simpl; congruence.
Qed.

(** *** Values that are not finite *)

Lemma div_by_zero_nonfinite x z :
  is_zero z = true → nonfinite (x / z) = true.
Proof.
  rewrite is_zero_spec. unfold nonfinite. rewrite div_spec.
  destruct (Prim2SF z); try discriminate. intros _.
  destruct (Prim2SF x); reflexivity.
Qed.

Lemma div_by_nan x z : Prim2SF z = S754_nan → nonfinite (x / z) = true.
Proof.
  intros Hz. unfold nonfinite. rewrite div_spec, Hz.
  destruct (Prim2SF x); reflexivity.
Qed.

Lemma div_nonfinite_l x y : nonfinite x = true → nonfinite (x / y) = true.
Proof.
  unfold nonfinite. rewrite div_spec.
  destruct (Prim2SF x); try discriminate; intros _;
    destruct (Prim2SF y); reflexivity.
Qed.

Lemma mul_nonfinite_l x y : nonfinite x = true → nonfinite (x * y) = true.
Proof.
  unfold nonfinite. rewrite mul_spec.
  destruct (Prim2SF x); try discriminate; intros _;
    destruct (Prim2SF y); reflexivity.
Qed.

Lemma mul_nonfinite_r x y : nonfinite y = true → nonfinite (x * y) = true.
Proof.
  unfold nonfinite. rewrite mul_spec.
  destruct (Prim2SF y); try discriminate; intros _;
    destruct (Prim2SF x); reflexivity.
Qed.

Lemma add_nonfinite_l x y : nonfinite x = true → nonfinite (x + y) = true.
Proof.
  unfold nonfinite. rewrite add_spec.
  destruct (Prim2SF x) as [b|b| |b m e]; try discriminate; intros _;
    destruct (Prim2SF y) as [c|c| |c n f]; try reflexivity;
    destruct b, c; reflexivity.
Qed.

Lemma add_nonfinite_r x y : nonfinite y = true → nonfinite (x + y) = true.
Proof.
  unfold nonfinite. rewrite add_spec.
  destruct (Prim2SF y) as [c|c| |c n f]; try discriminate; intros _;
    destruct (Prim2SF x) as [b|b| |b m e]; try reflexivity;
    destruct b, c; reflexivity.
Qed.

Lemma sqrt_nonfinite x :
  nonfinite x = true → nonfinite (PrimFloat.sqrt x) = true.
Proof.
  unfold nonfinite. rewrite sqrt_spec.
  destruct (Prim2SF x) as [b|[|]| |b m e]; try discriminate; intros _;
    reflexivity.
Qed.

Lemma div_nonfinite_both x y :
  nonfinite x = true → nonfinite y = true → (x / y)%float = nan.
Proof.
  unfold nonfinite. intros Hx Hy. apply nan_unique. rewrite div_spec.
  destruct (Prim2SF x); try discriminate;
    destruct (Prim2SF y); try discriminate; reflexivity.
Qed.

(** *** Zeros and [nan] *)

Lemma div_zero_or_nan_l x y :
  zero_or_nan x = true → zero_or_nan (x / y) = true.
Proof.
  unfold zero_or_nan. rewrite div_spec.
  destruct (Prim2SF x); try discriminate; intros _;
    destruct (Prim2SF y); reflexivity.
Qed.

Lemma mul_zero_or_nan_r x y :
  zero_or_nan y = true → zero_or_nan (x * y) = true.
Proof.
  unfold zero_or_nan. rewrite mul_spec.
  destruct (Prim2SF y); try discriminate; intros _;
    destruct (Prim2SF x); reflexivity.
Qed.

Lemma mul_zero_or_nan_l x y :
  zero_or_nan x = true → zero_or_nan (x * y) = true.
Proof.
  unfold zero_or_nan. rewrite mul_spec.
  destruct (Prim2SF x); try discriminate; intros _;
    destruct (Prim2SF y); reflexivity.
Qed.

Lemma add_zero_or_nan x y :
  zero_or_nan x = true → zero_or_nan y = true → zero_or_nan (x + y) = true.
Proof.
  unfold zero_or_nan. rewrite add_spec.
  destruct (Prim2SF x) as [b|b| |b m e]; try discriminate; intros _;
    destruct (Prim2SF y) as [c|c| |c n f]; try discriminate; intros _;
    try reflexivity; destruct b, c; reflexivity.
Qed.

Lemma sqrt_zero_or_nan x :
  zero_or_nan x = true → zero_or_nan (PrimFloat.sqrt x) = true.
Proof.
  unfold zero_or_nan. rewrite sqrt_spec.
  destruct (Prim2SF x) as [b|b| |b m e]; try discriminate; intros _;
    reflexivity.
Qed.

Lemma div_zero_or_nan_both x y :
  zero_or_nan x = true → zero_or_nan y = true → (x / y)%float = nan.
Proof.
  unfold zero_or_nan. intros Hx Hy. apply nan_unique. rewrite div_spec.
  destruct (Prim2SF x); try discriminate;
    destruct (Prim2SF y); try discriminate; reflexivity.
Qed.

End Kinds.

(** ** Shapes under the array operations *)

Section ArrayShapes.

Lemma concat_map_map {A B} (f : A → B) (a : list (list A)) :
  concat (map (map f) a) = map f (concat a).
Proof.
  induction a as [|r a IH]; simpl; [reflexivity|].
  rewrite IH, map_app. reflexivity.
Qed.

Lemma stretch_same {A} (n : nat) (l : list A) : length l = n → stretch n l = l.
Proof.
  intros <-. destruct l as [|x [|y l]]; reflexivity.
Qed.

Lemma broadcast_to_same {A} (a : list (list A)) c n :
  has_shape a c n → broadcast_to c n a = a.
Proof.
  intros [Hc Hn]. unfold broadcast_to.
  assert (Hrows : map (stretch n) a = a).
  { clear Hc. induction Hn as [|r a Hr Ha IH]; simpl; [reflexivity|].
    rewrite IH, stretch_same by exact Hr. reflexivity. }
  rewrite Hrows. apply stretch_same, Hc.
Qed.

Lemma broadcast_dim_same n : broadcast_dim n n = Some n.
Proof. unfold broadcast_dim. rewrite Nat.eqb_refl. reflexivity. Qed.

Lemma has_shape_shape1_eq {A} (a b : list (list A)) c n :
  has_shape a c n → has_shape b c n → shape1 a = shape1 b.
Proof.
  intros [Hca Hna] [Hcb Hnb].
  destruct a as [|ra a], b as [|rb b]; simpl in *; try lia.
  inversion Hna; inversion Hnb; subst. lia.
Qed.

(** On operands of one shape, [+] is element-wise and never raises. *)
Lemma np_add_opt_same_shape (a b : list (list float)) c n :
  has_shape a c n → has_shape b c n →
  np_add_opt a b = Some (zip_with (zip_with PrimFloat.add) a b).
Proof.
  intros Ha Hb. unfold np_add_opt, shape0.
  rewrite (has_shape_shape1_eq a b c n Ha Hb).
  destruct Ha as [Hca Hna], Hb as [Hcb Hnb].
  rewrite Hca, Hcb, !broadcast_dim_same.
  assert (Hs : shape1 b = n ∨ c = 0).
  { destruct b as [|rb b]; simpl in *; [right; lia|].
    inversion Hnb; subst. left. reflexivity. }
  destruct Hs as [->| ->].
  - rewrite !broadcast_to_same by (split; assumption). reflexivity.
  - destruct a, b; simpl in *; try lia. reflexivity.
Qed.

Lemma has_shape_map {A B} (f : A → B) (a : list (list A)) c n :
  has_shape a c n → has_shape (map (map f) a) c n.
Proof.
  intros [Hc Hn]. split; [rewrite length_map; exact Hc|].
  apply Forall_map. eapply Forall_impl; [exact Hn|].
  simpl. intros r Hr. rewrite length_map. exact Hr.
Qed.

Lemma has_shape_zip_with {A} (f : A → A → A) (a b : list (list A)) c n :
  has_shape a c n → has_shape b c n →
  has_shape (zip_with (zip_with f) a b) c n.
Proof.
  intros [Hca Hna] [Hcb Hnb]. split.
  - rewrite length_zip_with. lia.
  - clear Hca Hcb. revert b Hnb.
    induction Hna as [|ra a Hra Ha IH]; intros b Hnb; [constructor|].
    destruct Hnb as [|rb b Hrb Hb]; simpl; constructor.
    + rewrite length_zip_with. lia.
    + apply IH, Hb.
Qed.

Lemma has_shape_concat_length {A} (a : list (list A)) c n :
  has_shape a c n → length (concat a) = (c * n).
Proof.
  intros [<- Hn]. induction Hn as [|r a Hr Ha IH]; simpl; [reflexivity|].
  rewrite length_app, IH, Hr. reflexivity.
Qed.

End ArrayShapes.

(** ** Kinds of sums, means and root-mean-squares *)

Section ArrayKinds.

Lemma foldl_add_nonfinite_acc (l : list float) acc :
  nonfinite acc = true → nonfinite (foldl PrimFloat.add acc l) = true.
Proof.
  revert acc. induction l as [|v l IH]; intros acc Hacc; [exact Hacc|].
  simpl. apply IH, add_nonfinite_l, Hacc.
Qed.

Lemma foldl_add_nonfinite (l : list float) acc v :
  In v l → nonfinite v = true →
  nonfinite (foldl PrimFloat.add acc l) = true.
Proof.
  revert acc. induction l as [|u l IH]; intros acc Hin Hv; [destruct Hin|].
  simpl. destruct Hin as [->|Hin].
  - apply foldl_add_nonfinite_acc, add_nonfinite_r, Hv.
  - apply IH; assumption.
Qed.

(** A buffer holding one value that is not finite has a root-mean-square
    that is not finite. *)
Lemma rms_nonfinite (y : list (list float)) row v :
  In row y → In v row → nonfinite v = true → nonfinite (rms y) = true.
Proof.
  intros Hrow Hv Hbad. unfold rms, np_mean.
  apply sqrt_nonfinite, div_nonfinite_l. unfold fsum.
  apply (foldl_add_nonfinite _ _ (v * v)%float).
  - unfold np_square. rewrite concat_map_map.
    apply (in_map (λ u, (u * u)%float)), in_concat.
    exists row. split; assumption.
  - apply mul_nonfinite_l, Hbad.
Qed.

Lemma mix_nonfinite (s noise : list (list float)) g :
  nonfinite g = true →
  Forall (Forall (λ v, nonfinite v = true))
    (zip_with (zip_with PrimFloat.add) s (np_mul_scalar noise g)).
Proof.
  intros Hg. unfold np_mul_scalar.
  revert s. induction noise as [|rn noise IH]; intros [|rs s]; simpl;
    try constructor; [|apply IH].
  clear IH. revert rs. induction rn as [|n rn IHr]; intros [|x rs]; simpl;
    try constructor; [|apply IHr].
  apply add_nonfinite_r, mul_nonfinite_r, Hg.
Qed.

Lemma foldl_add_zero_or_nan (l : list float) acc :
  zero_or_nan acc = true → Forall (λ v, zero_or_nan v = true) l →
  zero_or_nan (foldl PrimFloat.add acc l) = true.
Proof.
  intros Hacc Hl. revert acc Hacc.
  induction Hl as [|v l Hv Hl IH]; intros acc Hacc; [exact Hacc|].
  simpl. apply IH, add_zero_or_nan; assumption.
Qed.

(** A buffer of zeros and [nan]s has a root-mean-square that is a zero or
    [nan], whatever its size. *)
Lemma rms_zero_or_nan (y : list (list float)) :
  Forall (Forall (λ v, zero_or_nan v = true)) y → zero_or_nan (rms y) = true.
Proof.
  intros Hy. unfold rms, np_mean.
  apply sqrt_zero_or_nan, div_zero_or_nan_l. unfold fsum.
  apply foldl_add_zero_or_nan; [reflexivity|].
  unfold np_square. rewrite concat_map_map.
  apply Forall_map, Forall_concat.
  eapply Forall_impl; [exact Hy|]. simpl. intros row Hrow.
  eapply Forall_impl; [exact Hrow|]. simpl. intros v Hv.
  apply mul_zero_or_nan_l, Hv.
Qed.

Lemma mix_zero_or_nan (s noise : list (list float)) g :
  Forall (Forall (λ v, zero_or_nan v = true)) s → zero_or_nan g = true →
  Forall (Forall (λ v, zero_or_nan v = true))
    (zip_with (zip_with PrimFloat.add) s (np_mul_scalar noise g)).
Proof.
  intros Hs Hg. unfold np_mul_scalar. revert noise.
  induction Hs as [|rs s Hrs Hs IH]; intros [|rn noise]; simpl;
    try constructor; [|apply IH].
  clear -Hrs Hg. revert rn.
  induction Hrs as [|x rs Hx Hrs IHr]; intros [|n rn]; simpl;
    try constructor; [|apply IHr].
  apply add_zero_or_nan; [exact Hx | apply mul_zero_or_nan_r, Hg].
Qed.

Lemma rms_no_samples (a : list (list float)) c :
  has_shape a c 0 → rms a = nan.
Proof.
  intros Ha. unfold rms, np_mean.
  assert (Hlen : length (concat (np_square a)) = 0).
  { rewrite (has_shape_concat_length _ c 0); [lia|].
    apply has_shape_map, Ha. }
  apply length_zero_iff_nil in Hlen. rewrite Hlen. reflexivity.
Qed.

End ArrayKinds.

(** ** Running [apply] *)

Section Apply.

Context (env : Env) (parameters_values : gmap string string).

Lemma parameter_run key st :
  parameter parameters_values key st =
  match parameters_values !! key with
  | Some v => (Ok v, st)
  | None => (Raised (KeyError key), st)
  end.
Proof. unfold parameter. destruct (_ !! _); reflexivity. Qed.

Lemma get_actual_noise_path_frame st r st' :
  get_actual_noise_path env parameters_values st = (r, st') →
  st' = st ∧ r ≠ OutOfFuel.
Proof.
  unfold get_actual_noise_path. rewrite run_bind, parameter_run.
  destruct (_ !! _) as [v|]; [destruct (negb _)|];
    intros [= <- <-]; split; congruence.
Qed.

Lemma read_noise_frame p st r st' :
  read_noise env p st = (r, st') → st' = st ∧ r ≠ OutOfFuel.
Proof.
  unfold read_noise. rewrite run_bind. simpl.
  destruct (load env p _) as [e|[v|m]];
    intros [= <- <-]; split; congruence.
Qed.

Lemma py_float_run s st :
  py_float env s st =
  match float_of_str env s with
  | Some v => (Ok v, st)
  | None => (Raised (ValueError "could not convert string to float"), st)
  end.
Proof. unfold py_float. destruct (float_of_str _ _); reflexivity. Qed.

Lemma np_add_run a b st :
  np_add a b st =
  match np_add_opt a b with
  | Some y => (Ok y, st)
  | None =>
      (Raised (ValueError "operands could not be broadcast together"), st)
  end.
Proof. unfold np_add. destruct (np_add_opt _ _); reflexivity. Qed.

(** What one call of [get_noise_gain_factor] returns and logs *)
Lemma get_noise_gain_factor_run snr rms_noise rms_input st :
  get_noise_gain_factor env snr rms_noise rms_input st =
  match pow10 env (snr / 20)%float with
  | Some snr_linear =>
      (Ok (rms_input / rms_noise / snr_linear)%float,
       mkState (host st)
         (debug_log st ++ gain_records snr rms_noise rms_input snr_linear))
  | None =>
      (Raised (OverflowError "(34, 'Numerical result out of range')"),
       mkState (host st)
         (debug_log st ++ gain_records_before rms_noise rms_input))
  end.
Proof.
  cbv [get_noise_gain_factor py_pow10 mbind M_bind bind logging_debug ret
       raise host debug_log gain_records gain_records_before].
  destruct (pow10 env _); rewrite <- ?app_assoc; reflexivity.
Qed.

(** The steps of [apply] up to the call of [get_noise_gain_factor] *)
Lemma apply_run_gain fuel st p raw noise snr_str snr :
  get_actual_noise_path env parameters_values st = (Ok p, st) →
  read_noise env p st = (Ok raw, st) →
  adjust_noise_duration fuel raw st = (Ok noise, st) →
  parameters_values !! "snr"%string = Some snr_str →
  float_of_str env snr_str = Some snr →
  apply env parameters_values fuel st =
  let s := samples (host st) in
  match pow10 env (snr / 20)%float with
  | None =>
      (Raised (OverflowError "(34, 'Numerical result out of range')"),
       mkState (host st)
         (debug_log st ++ gain_records_before (rms noise) (rms s)))
  | Some snr_linear =>
      let g := (rms s / rms noise / snr_linear)%float in
      let log' :=
        debug_log st ++ gain_records snr (rms noise) (rms s) snr_linear in
      match np_add_opt s (np_mul_scalar noise g) with
      | Some y =>
          (Ok tt,
           mkState (mkDAF (np_div_scalar (np_mul_scalar y (rms s)) (rms y))
                          (sample_rate (host st))) log')
      | None =>
          (Raised (ValueError "operands could not be broadcast together"),
           mkState (host st) log')
      end
  end.
Proof.
  intros Hpath Hread Hadj Hsnr Hfloat.
  pose proof (get_noise_gain_factor_run snr (rms noise)
                (rms (samples (host st))) st) as Hgain.
  unfold apply.
  run_ok Hpath. run_ok Hread. run_ok Hadj.
  run_step. rewrite get_samples_run. cbv beta iota.
  run_step. rewrite parameter_run, Hsnr. cbv beta iota.
  run_step. rewrite py_float_run, Hfloat. cbv beta iota.
  run_step. rewrite Hgain.
  destruct (pow10 env _) as [snr_linear|]; [|reflexivity].
  cbv beta iota zeta.
  run_step. rewrite get_samples_run. cbv beta iota. simpl host.
  run_step. rewrite np_add_run.
  destruct (np_add_opt _ _); reflexivity.
Qed.

(** Every way a call of [apply] can end. *)
Lemma apply_cases fuel st :
  (∃ e st', apply env parameters_values fuel st = (Raised e, st') ∧
            host st' = host st) ∨
  (∃ p raw, apply env parameters_values fuel st = (OutOfFuel, st) ∧
            get_actual_noise_path env parameters_values st = (Ok p, st) ∧
            read_noise env p st = (Ok raw, st) ∧
            repeat_noise fuel raw (shape1 (samples (host st))) = None) ∨
  (∃ noise g y log',
      apply env parameters_values fuel st =
      (Ok tt,
       mkState (mkDAF (np_div_scalar
                         (np_mul_scalar y (rms (samples (host st)))) (rms y))
                      (sample_rate (host st))) log') ∧
      np_add_opt (samples (host st)) (np_mul_scalar noise g) = Some y).
Proof.
  destruct (get_actual_noise_path env parameters_values st)
    as [[p|e|] st1] eqn:Hpath;
    destruct (get_actual_noise_path_frame _ _ _ Hpath) as [-> Hnd];
    [| |congruence].
  2:{ left. exists e, st. split; [|reflexivity].
      unfold apply. rewrite run_bind, Hpath. reflexivity. }
  destruct (read_noise env p st) as [[raw|e|] st1] eqn:Hread;
    destruct (read_noise_frame _ _ _ _ Hread) as [-> Hnd'];
    [| |congruence].
  2:{ left. exists e, st. split; [|reflexivity].
      unfold apply. run_ok Hpath. run_step. rewrite Hread. reflexivity. }
  pose proof (adjust_noise_duration_run fuel raw st) as Hadj.
  destruct (repeat_noise fuel raw _) as [looped|] eqn:Hloop.
  2:{ right. left. exists p, raw. split; [|auto].
      unfold apply. run_ok Hpath. run_ok Hread. run_step.
      rewrite Hadj. reflexivity. }
  destruct (parameters_values !! "snr"%string) as [snr_str|] eqn:Hsnr.
  2:{ left. exists (KeyError "snr"), st. split; [|reflexivity].
      unfold apply. run_ok Hpath. run_ok Hread. run_ok Hadj.
      run_step. rewrite get_samples_run. cbv beta iota.
      run_step. rewrite parameter_run, Hsnr. reflexivity. }
  destruct (float_of_str env snr_str) as [snr|] eqn:Hfloat.
  2:{ left. eexists _, st. split; [|reflexivity].
      unfold apply. run_ok Hpath. run_ok Hread. run_ok Hadj.
      run_step. rewrite get_samples_run. cbv beta iota.
      run_step. rewrite parameter_run, Hsnr. cbv beta iota.
      run_step. rewrite py_float_run, Hfloat. reflexivity. }
  pose proof (apply_run_gain fuel st p raw _ snr_str snr
                Hpath Hread Hadj Hsnr Hfloat) as Hrun.
  cbv zeta in Hrun.
  destruct (pow10 env _) as [snr_linear|].
  - destruct (np_add_opt _ _) as [y|] eqn:Hadd.
    + right. right. eexists _, _, y, _. split; [exact Hrun | exact Hadd].
    + left. eexists _, _. split; [exact Hrun | reflexivity].
  - left. eexists _, _. split; [exact Hrun | reflexivity].
Qed.

End Apply.

(** ** The noise gain *)

(** C2 (as amended).  Whenever Python's [10 ** (snr / 20.0)] returns a
    value [snr_linear], the gain computation returns the double
    [rms_input / rms_noise / snr_linear] (the exponent is [snr / 20], not
    [snr / 10]) after logging its four records; when [10 ** (snr / 20.0)]
    overflows, it raises [OverflowError] after the first two records.  In
    both cases the host object is untouched. *)
Theorem get_noise_gain_factor_formula
    (env : Env) (snr rms_noise rms_input : float) (st : state) :
  (∀ snr_linear,
     pow10 env (snr / 20)%float = Some snr_linear →
     get_noise_gain_factor env snr rms_noise rms_input st =
     (Ok (rms_input / rms_noise / snr_linear)%float,
      mkState (host st)
        (debug_log st ++
         gain_records snr rms_noise rms_input snr_linear))) ∧
  (pow10 env (snr / 20)%float = None →
   get_noise_gain_factor env snr rms_noise rms_input st =
   (Raised (OverflowError "(34, 'Numerical result out of range')"),
    mkState (host st)
      (debug_log st ++ gain_records_before rms_noise rms_input))).
Proof.
  split.
  - intros snr_linear Hpow.
    rewrite get_noise_gain_factor_run, Hpow. reflexivity.
  - intros Hpow. rewrite get_noise_gain_factor_run, Hpow. reflexivity.
Qed.

Lemma get_noise_gain_factor_formula_witness :
  get_noise_gain_factor demo_env 6 2 1 host0 =
  (Ok (1 / 2 / 0x1.fec982d5bb8afp+0)%float,
   mkState (host host0)
     (debug_log host0 ++ gain_records 6 2 1 0x1.fec982d5bb8afp+0)).
Proof.
  apply (proj1 (get_noise_gain_factor_formula demo_env 6 2 1 host0)).
  reflexivity.
Defined.

(** C2 as stated fails at 7000 dB: [10 ** 350.0] overflows and the gain
    computation raises instead of returning a value. *)
Lemma get_noise_gain_factor_overflows :
  float_of_str demo_env "7000" = Some 7000%float ∧
  get_noise_gain_factor demo_env 7000 1 1 host0 =
  (Raised (OverflowError "(34, 'Numerical result out of range')"),
   mkState (host host0) (gain_records_before 1 1)).
Proof. split; reflexivity. Qed.

(** Two different targets can give the same gain: the gain is not strictly
    decreasing in the target SNR. *)
Example get_noise_gain_factor_equal_at_close_snr :
  (0x1p-60 <? 0x1p-59)%float = true ∧
  ∃ st1 st2,
    get_noise_gain_factor demo_env 0x1p-60 1 1 host0 = (Ok 1%float, st1) ∧
    get_noise_gain_factor demo_env 0x1p-59 1 1 host0 = (Ok 1%float, st2).
Proof.
  split; [reflexivity|]. eexists _, _. split; vm_compute; reflexivity.
Qed.

(** ** Degenerate noise *)

Section Degenerate.

Context (env : Env) (parameters_values : gmap string string).

Lemma gain_nonfinite (rms_noise rms_input snr_linear : float) :
  is_zero rms_noise = true ∨ rms_noise = nan →
  nonfinite (rms_input / rms_noise / snr_linear) = true.
Proof.
  intros [Hz| ->]; apply div_nonfinite_l.
  - apply div_by_zero_nonfinite, Hz.
  - apply div_by_nan. reflexivity.
Qed.

(** C4 (as amended).  When the adjusted noise has RMS 0 or no samples, the
    [snr] parameter parses and [10 ** (snr / 20.0)] does not overflow,
    [apply] returns without raising: the gain is not finite, and every
    sample written to the host buffer is [nan]. *)
Theorem apply_degenerate_noise_propagates
    (fuel : nat) (st : state) (p : string) (raw noise : list (list float))
    (snr_str : string) (snr snr_linear : float) (L : nat) :
  get_actual_noise_path env parameters_values st = (Ok p, st) →
  read_noise env p st = (Ok raw, st) →
  adjust_noise_duration fuel raw st = (Ok noise, st) →
  parameters_values !! "snr"%string = Some snr_str →
  float_of_str env snr_str = Some snr →
  pow10 env (snr / 20)%float = Some snr_linear →
  has_shape (samples (host st)) 2 L → has_shape noise 2 L →
  is_zero (rms noise) = true ∨ L = 0 →
  ∃ g st1 st',
    get_noise_gain_factor env snr (rms noise) (rms (samples (host st))) st =
      (Ok g, st1) ∧
    is_finite g = false ∧
    apply env parameters_values fuel st = (Ok tt, st') ∧
    has_shape (samples (host st')) 2 L ∧
    Forall (Forall (λ v, v = nan)) (samples (host st')).
Proof.
  intros Hpath Hread Hadj Hsnr Hfloat Hpow Hs Hn Hdeg.
  pose proof (get_noise_gain_factor_run env snr (rms noise)
                (rms (samples (host st))) st) as Hgain.
  pose proof (apply_run_gain env parameters_values fuel st p raw noise
                snr_str snr Hpath Hread Hadj Hsnr Hfloat) as Hrun.
  rewrite Hpow in Hgain, Hrun. cbv zeta in Hrun.
  set (g := (rms (samples (host st)) / rms noise / snr_linear)%float) in *.
  assert (Hg : nonfinite g = true).
  { apply gain_nonfinite. destruct Hdeg as [H0| ->]; [left; exact H0|].
    right. eapply rms_no_samples, Hn. }
  assert (Hng : has_shape (np_mul_scalar noise g) 2 L)
    by (apply has_shape_map, Hn).
  rewrite (np_add_opt_same_shape _ _ 2 L Hs Hng) in Hrun.
  set (y := zip_with (zip_with PrimFloat.add) (samples (host st))
              (np_mul_scalar noise g)) in *.
  assert (Hybad : Forall (Forall (λ v, nonfinite v = true)) y)
    by (apply mix_nonfinite, Hg).
  assert (Hyshape : has_shape y 2 L) by (apply has_shape_zip_with; assumption).
  eexists g, _, _. split; [exact Hgain|].
  split; [apply nonfinite_is_finite, Hg|].
  split; [exact Hrun|]. simpl. split.
  - apply has_shape_map, has_shape_map, Hyshape.
  - unfold np_div_scalar, np_mul_scalar. rewrite map_map.
    apply Forall_map, Forall_forall. intros row Hrow. simpl.
    rewrite map_map. apply Forall_map, Forall_forall. intros v Hv. simpl.
    apply list_elem_of_In in Hrow, Hv.
    assert (Hvbad : nonfinite v = true).
    { rewrite Forall_forall in Hybad.
      pose proof (Hybad row (proj2 (list_elem_of_In _ _) Hrow)) as Hr.
      rewrite Forall_forall in Hr.
      exact (Hr v (proj2 (list_elem_of_In _ _) Hv)). }
    apply div_nonfinite_both.
    + apply mul_nonfinite_l, Hvbad.
    + eapply rms_nonfinite; eassumption.
Qed.

End Degenerate.

Lemma apply_degenerate_noise_propagates_witness :
  ∃ g st1 st',
    get_noise_gain_factor demo_env 6 (rms [[0; 0]; [0; 0]]%float)
      (rms (samples (host host_ones))) host_ones = (Ok g, st1) ∧
    is_finite g = false ∧
    apply demo_env (params "sounds/silence.wav" "6") 3 host_ones =
      (Ok tt, st') ∧
    has_shape (samples (host st')) 2 2 ∧
    Forall (Forall (λ v, v = nan)) (samples (host st')).
Proof.
  apply (apply_degenerate_noise_propagates demo_env
           (params "sounds/silence.wav" "6") 3 host_ones
           "/opt/audio_degrader/resources/sounds/silence.wav"
           [[0]; [0]]%float [[0; 0]; [0; 0]]%float "6" 6%float
           0x1.fec982d5bb8afp+0%float 2).
  - reflexivity.
  - reflexivity.
  - reflexivity.
  - reflexivity.
  - reflexivity.
  - reflexivity.
  - split; [reflexivity | repeat constructor].
  - split; [reflexivity | repeat constructor].
  - left. reflexivity.
Defined.

(** C4 as stated fails when the target is 7000 dB: with a silent noise
    [apply] raises [OverflowError] from [10 ** 350.0], after two log
    records, and writes nothing. *)
Lemma apply_degenerate_noise_can_raise :
  adjust_noise_duration 3 [[0]; [0]]%float host_ones =
    (Ok [[0; 0]; [0; 0]]%float, host_ones) ∧
  is_zero (rms [[0; 0]; [0; 0]]%float) = true ∧
  apply demo_env (params "sounds/silence.wav" "7000") 3 host_ones =
  (Raised (OverflowError "(34, 'Numerical result out of range')"),
   mkState (host host_ones)
     (gain_records_before (rms [[0; 0]; [0; 0]]%float) (rms ones2))).
Proof. repeat split. Qed.

(** ** Loudness of the result *)


(** ** Atomicity of [apply] *)

Section Atomicity.

Context (env : Env) (parameters_values : gmap string string).

(** Whatever the fuel, a call that does not return normally leaves the host
    object as it found it. *)
Lemma apply_host_untouched fuel st r st' :
  apply env parameters_values fuel st = (r, st') →
  r ≠ Ok tt → host st' = host st.
Proof.
  intros Hrun Hr.
  destruct (apply_cases env parameters_values fuel st)
    as [(e & st1 & H & Hhost)|[(p & raw & H & _)|(n & g & y & l & H & _)]];
    rewrite H in Hrun; injection Hrun as <- <-; congruence.
Qed.

(** C5 (as amended).  Provided the loaded noise has at least one sample per
    channel or the host buffer has none, so that the repeat loop exits,
    a call of [apply] with enough fuel ends in one of two ways: it returns,
    and the host's samples are the renormalised mix (sample rate
    untouched); or it raises, and the host object is exactly as before. *)
Theorem apply_atomic (st : state) :
  (∀ p raw,
     get_actual_noise_path env parameters_values st = (Ok p, st) →
     read_noise env p st = (Ok raw, st) →
     1 ≤ shape1 raw ∨ shape1 (samples (host st)) = 0) →
  ∃ fuel0, ∀ fuel, fuel0 ≤ fuel →
    (∃ noise g y log',
        apply env parameters_values fuel st =
        (Ok tt,
         mkState (mkDAF (np_div_scalar
                           (np_mul_scalar y (rms (samples (host st))))
                           (rms y))
                        (sample_rate (host st))) log') ∧
        np_add_opt (samples (host st)) (np_mul_scalar noise g) = Some y) ∨
    (∃ e st',
        apply env parameters_values fuel st = (Raised e, st') ∧
        host st' = host st).
Proof.
  intros Hpre. set (L := shape1 (samples (host st))) in *.
  exists (S L). intros fuel Hfuel.
  destruct (apply_cases env parameters_values fuel st)
    as [Hraise|[(p & raw & _ & Hpath & Hread & Hloop)|Hok]].
  - right. exact Hraise.
  - exfalso. fold L in Hloop.
    assert (Hsome : is_Some (repeat_noise (S L) raw L)).
    { destruct (Hpre p raw Hpath Hread) as [Hpos|Hzero].
      - apply repeat_noise_terminates; lia.
      - rewrite Hzero. simpl. eauto. }
    destruct Hsome as [looped Hsome].
    rewrite (repeat_noise_mono _ _ _ _ _ Hfuel Hsome) in Hloop. discriminate.
  - left. exact Hok.
Qed.

End Atomicity.

Lemma apply_atomic_witness :
  ∃ fuel0, ∀ fuel, fuel0 ≤ fuel →
    (∃ noise g y log',
        apply demo_env (params "/data/hum.wav" "6") fuel host_ones =
        (Ok tt,
         mkState (mkDAF (np_div_scalar
                           (np_mul_scalar y (rms (samples (host host_ones))))
                           (rms y))
                        (sample_rate (host host_ones))) log') ∧
        np_add_opt (samples (host host_ones)) (np_mul_scalar noise g)
        = Some y) ∨
    (∃ e st',
        apply demo_env (params "/data/hum.wav" "6") fuel host_ones =
        (Raised e, st') ∧
        host st' = host host_ones).
Proof.
  apply (apply_atomic demo_env (params "/data/hum.wav" "6") host_ones).
  intros p raw Hpath Hread. left.
  assert (Hp : p = "/data/hum.wav"%string)
    by (vm_compute in Hpath; congruence).
  subst p.
  change (read_noise demo_env "/data/hum.wav" host_ones)
    with (Ok [[1]; [1]]%float, host_ones) in Hread.
  assert (Hraw : raw = [[1]; [1]]%float) by congruence.
  subst raw. simpl. lia.
Defined.

(** C5 as stated fails for an empty noise file and a non-empty host buffer:
    whatever the fuel, the call neither returns nor raises. *)
Lemma apply_empty_noise_never_ends :
  ¬ ∃ fuel,
      (∃ st', apply demo_env (params "sounds/empty.wav" "6") fuel host_ones
              = (Ok tt, st')) ∨
      (∃ e st', apply demo_env (params "sounds/empty.wav" "6") fuel host_ones
                = (Raised e, st')).
Proof.
  intros [fuel H].
  assert (Hrun : apply demo_env (params "sounds/empty.wav" "6") fuel host_ones
                 = (OutOfFuel, host_ones)).
  { assert (Hpath :
      get_actual_noise_path demo_env (params "sounds/empty.wav" "6") host_ones
      = (Ok "/opt/audio_degrader/resources/sounds/empty.wav"%string,
         host_ones)) by reflexivity.
    assert (Hread :
      read_noise demo_env "/opt/audio_degrader/resources/sounds/empty.wav"
        host_ones = (Ok [[]; []], host_ones)) by reflexivity.
    unfold apply. run_ok Hpath. run_ok Hread.
    run_step. rewrite adjust_noise_duration_run.
    rewrite repeat_noise_empty_diverges; [reflexivity | reflexivity |].
    simpl. lia. }
  rewrite Hrun in H. destruct H as [[st' H]|(e & st' & H)]; discriminate.
Qed.


(** * Further properties of the code *)

(** ** Duration adjustment: tiling, working size, empty host *)

Section Tiling.

Context {A : Type}.
Implicit Types (a : list (list A)) (row : list A).

Lemma lookup_concatenate a j row :
  a !! j = Some row → np_concatenate_axis1 a a !! j = Some (row ++ row).
Proof.
  revert j. induction a as [|r a IH]; intros [|j] H; simpl in *;
    try discriminate.
  - injection H as ->. reflexivity.
  - apply IH, H.
Qed.

(** Channel [j] of the array doubled [k] times is a row of [2^k] copies of
    the original channel: position [i] holds the original sample
    [i mod len]. *)
Lemma lookup_doubled k a j row :
  a !! j = Some row → 1 ≤ length row →
  ∃ wide, doubled k a !! j = Some wide ∧
          length wide = 2 ^ k * length row ∧
          ∀ i, i < length wide → wide !! i = row !! (i mod length row).
Proof.
  intros Hj Hlen. induction k as [|k (wide & Hw & Hlw & Hiw)].
  - exists row. split; [exact Hj|]. split; [simpl; lia|].
    intros i Hi. rewrite Nat.mod_small by exact Hi. reflexivity.
  - exists (wide ++ wide). split; [|split].
    + change (doubled (S k) a)
        with (np_concatenate_axis1 (doubled k a) (doubled k a)).
      apply lookup_concatenate, Hw.
    + rewrite length_app, Hlw, Nat.pow_succ_r'. lia.
    + intros i Hi. rewrite length_app in Hi.
      destruct (Nat.lt_ge_cases i (length wide)) as [Hlt|Hge].
      * rewrite lookup_app_l by exact Hlt. apply Hiw, Hlt.
      * rewrite lookup_app_r by exact Hge.
        rewrite Hiw by lia. f_equal.
        replace i with ((i - length wide) + 2 ^ k * length row) at 2 by lia.
        rewrite Nat.Div0.mod_add. reflexivity.
Qed.

End Tiling.

(** X1.  The adjusted noise is the original tiled: with [len >= 1] samples
    per channel, sample [i] of channel [j] of the result is sample
    [i mod len] of channel [j] of the noise, for every [i] below the host's
    sample count and any number of channels. *)
Theorem adjust_noise_duration_tiles
    (noise : list (list float)) (c len L fuel : nat) (st : state) :
  has_shape noise c len → 0 < c → 1 ≤ len →
  shape1 (samples (host st)) = L → L < fuel →
  ∃ out,
    adjust_noise_duration fuel noise st = (Ok out, st) ∧
    has_shape out c L ∧
    ∀ j row i, noise !! j = Some row → i < L →
      ∃ orow, out !! j = Some orow ∧ orow !! i = row !! (i mod len).
Proof.
  intros Hshape Hc Hlen HL Hfuel.
  assert (Hs1 : shape1 noise = len) by (eapply has_shape_shape1; eauto).
  destruct (repeat_noise_terminates L noise L) as [looped Hloop];
    [lia | lia |].
  destruct (repeat_noise_result _ _ _ _ Hloop) as (k & _ & -> & Hreach & _).
  rewrite shape1_doubled, Hs1 in Hreach.
  exists (slice_axis1 L (doubled k noise)). split; [|split].
  - rewrite adjust_noise_duration_run, HL.
    rewrite (repeat_noise_mono (S L) fuel _ _ _ Hfuel Hloop). reflexivity.
  - eapply has_shape_slice; [apply has_shape_doubled, Hshape | exact Hreach].
  - intros j row i Hj Hi.
    assert (Hrow : length row = len).
    { destruct Hshape as [_ Hall]. rewrite Forall_lookup in Hall.
      exact (Hall j row Hj). }
    destruct (lookup_doubled k noise j row Hj ltac:(lia))
      as (wide & Hw & Hlw & Hiw).
    exists (take L wide). split.
    + unfold slice_axis1. change (map (take L) (doubled k noise))
        with (take L <$> doubled k noise).
      rewrite list_lookup_fmap, Hw. reflexivity.
    + rewrite lookup_take_lt by exact Hi.
      rewrite Hiw by (rewrite Hlw, Hrow; lia). rewrite Hrow. reflexivity.
Qed.

Lemma adjust_noise_duration_tiles_witness :
  ∃ out,
    adjust_noise_duration 6 ramp2 host5 = (Ok out, host5) ∧
    has_shape out 2 5 ∧
    ∀ j row i, ramp2 !! j = Some row → i < 5 →
      ∃ orow, out !! j = Some orow ∧ orow !! i = row !! (i mod 2).
Proof.
  apply (adjust_noise_duration_tiles ramp2 2 2 5 6 host5).
  - split; [reflexivity | repeat constructor].
  - lia.
  - lia.
  - reflexivity.
  - lia.
Defined.

(** X2.  The repeat loop never builds more than it must: started with at
    least one sample per channel it stops on a buffer at least as long as
    the target and, when the noise was shorter than the target, strictly
    shorter than twice the target; a noise that is long enough is not
    touched. *)
Theorem repeat_noise_working_size (noise : list (list float)) (L : nat) :
  1 ≤ shape1 noise →
  ∃ looped,
    (∀ fuel, L < fuel → repeat_noise fuel noise L = Some looped) ∧
    L ≤ shape1 looped ∧
    (shape1 noise < L → shape1 looped < 2 * L) ∧
    (L ≤ shape1 noise → looped = noise).
Proof.
  intros Hpos.
  destruct (repeat_noise_terminates L noise L) as [looped Hloop];
    [lia | lia |].
  destruct (repeat_noise_result _ _ _ _ Hloop)
    as (k & _ & -> & Hreach & Hmin).
  exists (doubled k noise). split; [|split; [|split]].
  - intros fuel Hfuel. apply (repeat_noise_mono (S L)); [lia | exact Hloop].
  - exact Hreach.
  - intros Hshort. destruct k as [|k].
    + simpl in Hreach. lia.
    + specialize (Hmin k ltac:(lia)).
      rewrite shape1_doubled in Hmin |- *.
      rewrite Nat.pow_succ_r'. lia.
  - intros Hlong. destruct k as [|k]; [reflexivity|].
    specialize (Hmin 0 ltac:(lia)). simpl in Hmin. lia.
Qed.

Lemma repeat_noise_working_size_witness :
  ∃ looped,
    (∀ fuel, 5 < fuel → repeat_noise fuel ramp2 5 = Some looped) ∧
    5 ≤ shape1 looped ∧
    (shape1 ramp2 < 5 → shape1 looped < 2 * 5) ∧
    (5 ≤ shape1 ramp2 → looped = ramp2).
Proof.
  apply (repeat_noise_working_size ramp2 5). simpl. lia.
Defined.

(** X3.  With an empty host buffer the loop body never runs: whatever the
    noise, even one without samples, [adjust_noise_duration] returns at once
    with every channel cut to nothing. *)
Theorem adjust_noise_duration_empty_host
    (noise : list (list float)) (fuel : nat) (st : state) :
  shape1 (samples (host st)) = 0 →
  adjust_noise_duration (S fuel) noise st = (Ok (map (λ _, []) noise), st).
Proof.
  intros HL. rewrite adjust_noise_duration_run, HL. simpl.
  unfold slice_axis1. reflexivity.
Qed.

Lemma adjust_noise_duration_empty_host_witness :
  adjust_noise_duration 1 [[]; []] host0 = (Ok [[]; []], host0) ∧
  adjust_noise_duration 1 ramp2 host0 = (Ok [[]; []], host0).
Proof.
  split.
  - apply (adjust_noise_duration_empty_host [[]; []] 0 host0). reflexivity.
  - apply (adjust_noise_duration_empty_host ramp2 0 host0). reflexivity.
Defined.

(** ** How [apply] fails, and what a successful call leaves behind *)

Section ApplyOutcomes.

Context (env : Env) (parameters_values : gmap string string).

(** X4.  A decoder failure on the resolved path is re-raised by [apply]
    unchanged, for whatever value of the other parameter, and leaves the
    host and the log as they were. *)
Theorem apply_load_failure (fuel : nat) (st : state) (p : string) (e : exn) :
  get_actual_noise_path env parameters_values st = (Ok p, st) →
  load env p (sample_rate (host st)) = inl e →
  apply env parameters_values fuel st = (Raised e, st).
Proof.
  intros Hpath Hload. unfold apply. run_ok Hpath. run_step.
  unfold read_noise. run_step. simpl. rewrite Hload. reflexivity.
Qed.

(** X5.  Without a [noise] parameter [apply] raises [KeyError('noise')]
    before anything else, and changes nothing. *)
Theorem apply_missing_noise_parameter (fuel : nat) (st : state) :
  parameters_values !! "noise"%string = None →
  apply env parameters_values fuel st = (Raised (KeyError "noise"), st).
Proof.
  intros Hnone. unfold apply. run_step.
  unfold get_actual_noise_path. run_step.
  rewrite parameter_run, Hnone. reflexivity.
Qed.

(** X6.  Once the noise is loaded and adjusted, a missing [snr] parameter
    raises [KeyError('snr')] and an [snr] that [float] rejects raises
    [ValueError]; in both cases nothing has been logged and the host is
    untouched. *)
Theorem apply_bad_snr_parameter
    (fuel : nat) (st : state) (p : string) (raw noise : list (list float)) :
  get_actual_noise_path env parameters_values st = (Ok p, st) →
  read_noise env p st = (Ok raw, st) →
  adjust_noise_duration fuel raw st = (Ok noise, st) →
  (parameters_values !! "snr"%string = None →
   apply env parameters_values fuel st = (Raised (KeyError "snr"), st)) ∧
  (∀ snr_str,
     parameters_values !! "snr"%string = Some snr_str →
     float_of_str env snr_str = None →
     apply env parameters_values fuel st =
     (Raised (ValueError "could not convert string to float"), st)).
Proof.
  intros Hpath Hread Hadj. split.
  - intros Hsnr. unfold apply. run_ok Hpath. run_ok Hread. run_ok Hadj.
    run_step. rewrite get_samples_run. cbv beta iota.
    run_step. rewrite parameter_run, Hsnr. reflexivity.
  - intros snr_str Hsnr Hfloat.
    unfold apply. run_ok Hpath. run_ok Hread. run_ok Hadj.
    run_step. rewrite get_samples_run. cbv beta iota.
    run_step. rewrite parameter_run, Hsnr. cbv beta iota.
    run_step. rewrite py_float_run, Hfloat. reflexivity.
Qed.

Lemma broadcast_dim_stereo_many c : 2 < c → broadcast_dim 2 c = None.
Proof.
  intros Hc. unfold broadcast_dim.
  destruct (Nat.eqb_spec 2 c); [lia|].
  destruct (Nat.eqb_spec c 1); [lia|]. reflexivity.
Qed.

(** X7.  A noise with more than two channels cannot be added to a
    two-channel host: when the [snr] parses and [10 ** (snr / 20.0)] does
    not overflow, [apply] raises NumPy's broadcast [ValueError] after the
    four diagnostic records were logged, and the host is untouched. *)
Theorem apply_rejects_extra_channels
    (fuel : nat) (st : state) (p : string) (raw noise : list (list float))
    (snr_str : string) (snr snr_linear : float) :
  get_actual_noise_path env parameters_values st = (Ok p, st) →
  read_noise env p st = (Ok raw, st) →
  adjust_noise_duration fuel raw st = (Ok noise, st) →
  parameters_values !! "snr"%string = Some snr_str →
  float_of_str env snr_str = Some snr →
  pow10 env (snr / 20)%float = Some snr_linear →
  length (samples (host st)) = 2 → 2 < length noise →
  apply env parameters_values fuel st =
  (Raised (ValueError "operands could not be broadcast together"),
   mkState (host st)
     (debug_log st ++
      gain_records snr (rms noise) (rms (samples (host st))) snr_linear)).
Proof.
  intros Hpath Hread Hadj Hsnr Hfloat Hpow Hhost Hnoise.
  rewrite (apply_run_gain env parameters_values fuel st p raw noise snr_str
             snr Hpath Hread Hadj Hsnr Hfloat), Hpow.
  cbv zeta. unfold np_add_opt, shape0, np_mul_scalar.
  rewrite length_map, Hhost, broadcast_dim_stereo_many by exact Hnoise.
  reflexivity.
Qed.

(** X8.  A call on a two-channel host with a two-channel adjusted noise,
    an [snr] that parses and a [10 ** (snr / 20.0)] that does not overflow
    returns normally whatever the values involved: the new buffer has the
    shape of the old one, the sample rate is kept, and the log grows by
    exactly the four diagnostic records. *)
Theorem apply_success_frame
    (fuel : nat) (st : state) (p : string) (raw noise : list (list float))
    (snr_str : string) (snr snr_linear : float) (L : nat) :
  get_actual_noise_path env parameters_values st = (Ok p, st) →
  read_noise env p st = (Ok raw, st) →
  adjust_noise_duration fuel raw st = (Ok noise, st) →
  parameters_values !! "snr"%string = Some snr_str →
  float_of_str env snr_str = Some snr →
  pow10 env (snr / 20)%float = Some snr_linear →
  has_shape (samples (host st)) 2 L → has_shape noise 2 L →
  ∃ y,
    apply env parameters_values fuel st =
    (Ok tt,
     mkState (mkDAF y (sample_rate (host st)))
       (debug_log st ++
        gain_records snr (rms noise) (rms (samples (host st)))
          snr_linear)) ∧
    has_shape y 2 L.
Proof.
  intros Hpath Hread Hadj Hsnr Hfloat Hpow Hs Hn.
  rewrite (apply_run_gain env parameters_values fuel st p raw noise snr_str
             snr Hpath Hread Hadj Hsnr Hfloat), Hpow.
  cbv zeta.
  set (g := (_ / snr_linear)%float).
  assert (Hng : has_shape (np_mul_scalar noise g) 2 L)
    by (apply has_shape_map, Hn).
  rewrite (np_add_opt_same_shape _ _ 2 L Hs Hng).
  eexists. split; [reflexivity|].
  apply has_shape_map, has_shape_map, has_shape_zip_with; assumption.
Qed.

(** X9.  A silent input is not kept silent: when every sample of a
    two-channel host is a zero, then for any two-channel adjusted noise and
    any [snr] that parses and whose [10 ** (snr / 20.0)] does not overflow,
    [apply] returns and every sample it writes back is [nan] (the
    renormalisation divides a zero by a zero RMS). *)
Theorem apply_silent_input_gives_nan
    (fuel : nat) (st : state) (p : string) (raw noise : list (list float))
    (snr_str : string) (snr snr_linear : float) (L : nat) :
  get_actual_noise_path env parameters_values st = (Ok p, st) →
  read_noise env p st = (Ok raw, st) →
  adjust_noise_duration fuel raw st = (Ok noise, st) →
  parameters_values !! "snr"%string = Some snr_str →
  float_of_str env snr_str = Some snr →
  pow10 env (snr / 20)%float = Some snr_linear →
  has_shape (samples (host st)) 2 L → has_shape noise 2 L →
  Forall (Forall (λ v, is_zero v = true)) (samples (host st)) →
  ∃ st',
    apply env parameters_values fuel st = (Ok tt, st') ∧
    has_shape (samples (host st')) 2 L ∧
    Forall (Forall (λ v, v = nan)) (samples (host st')).
Proof.
  intros Hpath Hread Hadj Hsnr Hfloat Hpow Hs Hn Hsilent.
  rewrite (apply_run_gain env parameters_values fuel st p raw noise snr_str
             snr Hpath Hread Hadj Hsnr Hfloat), Hpow.
  cbv zeta.
  assert (Hzn : Forall (Forall (λ v, zero_or_nan v = true))
                  (samples (host st))).
  { eapply Forall_impl; [exact Hsilent|]. simpl. intros row Hrow.
    eapply Forall_impl; [exact Hrow|]. simpl. intros v.
    apply is_zero_zero_or_nan. }
  assert (Hri : zero_or_nan (rms (samples (host st))) = true)
    by apply rms_zero_or_nan, Hzn.
  set (ri := rms (samples (host st))) in *.
  set (g := (ri / rms noise / snr_linear)%float).
  assert (Hg : zero_or_nan g = true)
    by (apply div_zero_or_nan_l, div_zero_or_nan_l, Hri).
  assert (Hng : has_shape (np_mul_scalar noise g) 2 L)
    by (apply has_shape_map, Hn).
  rewrite (np_add_opt_same_shape _ _ 2 L Hs Hng).
  set (y := zip_with (zip_with PrimFloat.add) (samples (host st))
              (np_mul_scalar noise g)).
  assert (Hy : Forall (Forall (λ v, zero_or_nan v = true)) y)
    by (apply mix_zero_or_nan; assumption).
  assert (Hry : zero_or_nan (rms y) = true) by apply rms_zero_or_nan, Hy.
  eexists. split; [reflexivity|]. simpl. split.
  - apply has_shape_map, has_shape_map, has_shape_zip_with; assumption.
  - unfold np_div_scalar, np_mul_scalar. rewrite map_map.
    apply Forall_map. eapply Forall_impl; [exact Hy|]. simpl.
    intros row Hrow. rewrite map_map. apply Forall_map.
    eapply Forall_impl; [exact Hrow|]. simpl. intros v Hv.
    apply div_zero_or_nan_both; [apply mul_zero_or_nan_l, Hv | exact Hry].
Qed.

(** X16.  When [10 ** (snr / 20.0)] overflows, [apply] raises the
    [OverflowError] after logging the two RMS values only, and leaves the
    host object untouched. *)
Theorem apply_snr_overflow
    (fuel : nat) (st : state) (p : string) (raw noise : list (list float))
    (snr_str : string) (snr : float) :
  get_actual_noise_path env parameters_values st = (Ok p, st) →
  read_noise env p st = (Ok raw, st) →
  adjust_noise_duration fuel raw st = (Ok noise, st) →
  parameters_values !! "snr"%string = Some snr_str →
  float_of_str env snr_str = Some snr →
  pow10 env (snr / 20)%float = None →
  apply env parameters_values fuel st =
  (Raised (OverflowError "(34, 'Numerical result out of range')"),
   mkState (host st)
     (debug_log st ++
      gain_records_before (rms noise) (rms (samples (host st))))).
Proof.
  intros Hpath Hread Hadj Hsnr Hfloat Hpow.
  rewrite (apply_run_gain env parameters_values fuel st p raw noise snr_str
             snr Hpath Hread Hadj Hsnr Hfloat), Hpow.
  reflexivity.
Qed.

End ApplyOutcomes.

Lemma apply_load_failure_witness :
  apply demo_env (params "sounds/missing.wav" "6") 3 host_ones =
  (Raised (LoadError "/opt/audio_degrader/resources/sounds/missing.wav"),
   host_ones).
Proof.
  apply (apply_load_failure demo_env (params "sounds/missing.wav" "6") 3
           host_ones "/opt/audio_degrader/resources/sounds/missing.wav").
  - reflexivity.
  - reflexivity.
Defined.

Lemma apply_missing_noise_parameter_witness :
  apply demo_env (<["snr" := "6"]> ∅) 3 host_ones =
  (Raised (KeyError "noise"), host_ones).
Proof.
  apply (apply_missing_noise_parameter demo_env (<["snr" := "6"]> ∅) 3
           host_ones).
  reflexivity.
Defined.

Lemma apply_bad_snr_parameter_witness :
  apply demo_env (<["noise" := "/data/hum.wav"]> ∅) 3 host_ones =
    (Raised (KeyError "snr"), host_ones) ∧
  apply demo_env (params "/data/hum.wav" "loud") 3 host_ones =
    (Raised (ValueError "could not convert string to float"), host_ones).
Proof.
  split.
  - refine (proj1 (apply_bad_snr_parameter demo_env
                     (<["noise" := "/data/hum.wav"]> ∅) 3 host_ones
                     "/data/hum.wav" [[1]; [1]]%float ones2 _ _ _) _);
      reflexivity.
  - refine (proj2 (apply_bad_snr_parameter demo_env
                     (params "/data/hum.wav" "loud") 3 host_ones
                     "/data/hum.wav" [[1]; [1]]%float ones2 _ _ _)
              "loud"%string _ _);
      reflexivity.
Defined.

Lemma apply_rejects_extra_channels_witness :
  apply studio_env (params "/data/surround.wav" "6") 3 host_ones =
  (Raised (ValueError "operands could not be broadcast together"),
   mkState (host host_ones)
     (debug_log host_ones ++
      gain_records 6 (rms [[1; 1]; [1; 1]; [1; 1]]%float)
        (rms (samples (host host_ones))) 0x1.fec982d5bb8afp+0)).
Proof.
  apply (apply_rejects_extra_channels studio_env
           (params "/data/surround.wav" "6") 3 host_ones
           "/data/surround.wav"
           [[1; 1]; [1; 1]; [1; 1]]%float
           [[1; 1]; [1; 1]; [1; 1]]%float "6" 6%float).
  - reflexivity.
  - reflexivity.
  - reflexivity.
  - reflexivity.
  - reflexivity.
  - reflexivity.
  - reflexivity.
  - simpl. lia.
Defined.

Lemma apply_success_frame_witness :
  ∃ y,
    apply demo_env (params "/data/hum.wav" "6") 3 host_ones =
    (Ok tt,
     mkState (mkDAF y (sample_rate (host host_ones)))
       (debug_log host_ones ++
        gain_records 6 (rms ones2) (rms (samples (host host_ones)))
          0x1.fec982d5bb8afp+0)) ∧
    has_shape y 2 2.
Proof.
  apply (apply_success_frame demo_env (params "/data/hum.wav" "6") 3
           host_ones "/data/hum.wav" [[1]; [1]]%float ones2 "6" 6%float
           0x1.fec982d5bb8afp+0%float 2).
  - reflexivity.
  - reflexivity.
  - reflexivity.
  - reflexivity.
  - reflexivity.
  - reflexivity.
  - split; [reflexivity | repeat constructor].
  - split; [reflexivity | repeat constructor].
Defined.

Lemma apply_silent_input_gives_nan_witness :
  ∃ st',
    apply demo_env (params "/data/hum.wav" "6") 3 host_silent = (Ok tt, st') ∧
    has_shape (samples (host st')) 2 2 ∧
    Forall (Forall (λ v, v = nan)) (samples (host st')).
Proof.
  apply (apply_silent_input_gives_nan demo_env (params "/data/hum.wav" "6") 3
           host_silent "/data/hum.wav" [[1]; [1]]%float ones2 "6" 6%float
           0x1.fec982d5bb8afp+0%float 2).
  - reflexivity.
  - reflexivity.
  - reflexivity.
  - reflexivity.
  - reflexivity.
  - reflexivity.
  - split; [reflexivity | repeat constructor].
  - split; [reflexivity | repeat constructor].
  - repeat constructor.
Defined.

Lemma apply_snr_overflow_witness :
  apply demo_env (params "/data/hum.wav" "7000") 3 host_ones =
  (Raised (OverflowError "(34, 'Numerical result out of range')"),
   mkState (host host_ones)
     (debug_log host_ones ++
      gain_records_before (rms ones2) (rms (samples (host host_ones))))).
Proof.
  apply (apply_snr_overflow demo_env (params "/data/hum.wav" "7000") 3
           host_ones "/data/hum.wav" [[1]; [1]]%float ones2 "7000"
           7000%float).
  - reflexivity.
  - reflexivity.
  - reflexivity.
  - reflexivity.
  - reflexivity.
  - reflexivity.
Defined.

(** ** Where the resolved path can point *)

(** X13.  Whatever the file system holds, the path [get_actual_noise_path]
    returns ends with the [noise] parameter, it raises nothing and changes
    nothing; a parameter rooted at [/] is returned verbatim even when no
    such file exists, because joining discards the resources directory. *)
Theorem get_actual_noise_path_keeps_parameter
    (env : Env) (parameters_values : gmap string string)
    (noise : string) (st : state) :
  parameters_values !! "noise"%string = Some noise →
  ∃ prefix,
    get_actual_noise_path env parameters_values st
      = (Ok (prefix +:+ noise), st) ∧
    (startswith_sep noise = true → prefix = ""%string).
Proof.
  intros Hparam.
  unfold get_actual_noise_path. run_step. rewrite parameter_run, Hparam.
  cbv beta iota.
  destruct (isfile env noise); simpl negb; cbv iota.
  - exists ""%string. split; [reflexivity | reflexivity].
  - unfold path_join at 1.
    destruct (startswith_sep noise) eqn:Habs.
    + exists ""%string. split; reflexivity.
    + destruct (_ || _)%bool.
      * eexists. split; [reflexivity | discriminate].
      * eexists. split; [|discriminate].
        rewrite <- string_app_assoc. reflexivity.
Qed.

Lemma get_actual_noise_path_keeps_parameter_witness :
  ∃ prefix,
    get_actual_noise_path demo_env (params "/nowhere/hiss.wav" "6") host_ones
      = (Ok (prefix +:+ "/nowhere/hiss.wav"), host_ones) ∧
    (startswith_sep "/nowhere/hiss.wav" = true → prefix = ""%string).
Proof.
  apply (get_actual_noise_path_keeps_parameter demo_env
           (params "/nowhere/hiss.wav" "6") "/nowhere/hiss.wav" host_ones).
  reflexivity.
Defined.

Example get_actual_noise_path_absolute_missing :
  get_actual_noise_path demo_env (params "/nowhere/hiss.wav" "6") host_ones
  = (Ok "/nowhere/hiss.wav"%string, host_ones).
Proof. reflexivity. Qed.

